(** * Verification of [alert_downtrends.py]

    A shallow embedding of the stock down-trend alert script and proofs of
    the properties its specification states about the ticker loader, the
    series normaliser, the down-trend detector and the report builder.

    Modelling conventions.
    - A Python [float] holding a closing price is either [NaN] (the pandas
      missing value) or a finite number; finite numbers are canonical
      rationals [Qc], on which the sign of a difference is the sign IEEE
      subtraction gives for finite operands.  Infinite prices are outside
      the data model (a closing price is a non-negative real number).
    - A [pd.Series] is the list of its rows (index label, value) in
      positional order.
    - Python [int] is [Z]; [str] is [string], compared byte-wise. *)

From Stdlib Require Import QArith Qcanon Ascii String.
From stdpp Require Import base numbers list strings gmap sorting pretty.

Local Open Scope Z_scope.

(** ** Floats and pandas Series *)

Inductive pyfloat : Type :=
  | NaN : pyfloat
  | Fin (q : Qc) : pyfloat.

Global Instance pyfloat_eq_dec : EqDecision pyfloat.
Proof. solve_decision. Defined.

(** [pd.isna] on a float. *)
Definition isna (x : pyfloat) : bool :=
  match x with NaN => true | Fin _ => false end.

(** [x - y]; NaN propagates. *)
Definition fsub (x y : pyfloat) : pyfloat :=
  match x, y with
  | Fin a, Fin b => Fin (a - b)%Qc
  | _, _ => NaN
  end.

(** [x < 0]; every comparison with NaN is false. *)
Definition flt0 (x : pyfloat) : bool :=
  match x with
  | Fin a => bool_decide (a < 0)%Qc
  | NaN => false
  end.

(** Index labels are timestamps (nanoseconds since the epoch). *)
Definition Timestamp : Type := Z.

Abbreviation Series := (list (Timestamp * pyfloat)).

Definition values (s : Series) : list pyfloat := s.*2.

(** [len(s)] *)
Definition len (s : Series) : Z := Z.of_nat (length s).

(** [s.dropna()]: a new Series without the rows whose value is missing. *)
Definition dropna (s : Series) : Series :=
  filter (λ p, isna p.2 = false) s.

(** [s.tail(k)]: pandas returns [s.iloc[0:0]] for [k = 0] and
    [s.iloc[-k:]] otherwise, so a positive [k] keeps the last [k] rows
    (all of them when [k] exceeds the length) and a negative [k] drops
    the first [|k|] rows. *)
Definition tail (k : Z) (s : Series) : Series :=
  if k =? 0 then []
  else if 0 <? k then drop (length s - Z.to_nat k)%nat s
  else drop (Z.to_nat (- k)) s.

(** [s.diff()]: row [i] holds [s[i] - s[i-1]]; the first row is NaN. *)
Fixpoint diff_from (prev : pyfloat) (s : Series) : Series :=
  match s with
  | [] => []
  | (i, x) :: r => (i, fsub x prev) :: diff_from x r
  end.

Definition diff (s : Series) : Series :=
  match s with
  | [] => []
  | (i, x) :: r => (i, NaN) :: diff_from x r
  end.

(** [(s < 0).all()] *)
Definition all_lt0 (s : Series) : bool := forallb flt0 (values s).

(** ** The down-trend detector *)

Definition is_consecutive_down (closes : Series) (n : Z) : bool :=
  let closes := dropna closes in
  if len closes <? n + 1 then false
  else
    let diffs := dropna (diff (tail (n + 1) closes)) in
    all_lt0 diffs.

(** The valid closing prices of a series, in date order. *)
Definition prices (s : Series) : list Qc :=
  omap (λ p, match p.2 with Fin q => Some q | NaN => None end) s.

(** ** The detector over an object store

    Python passes the Series by reference.  To state that a call leaves its
    argument untouched, the pandas methods are also modelled over a store of
    Series objects: each method reads the object it is called on and
    allocates its result as a new object. *)

Module Store.

Definition ref : Type := nat.

(** The store: the object with address [r] is at position [r]. *)
Abbreviation store := (list Series).

Definition M (A : Type) : Type := store → A * store.

Definition ret {A} (a : A) : M A := λ h, (a, h).

Definition bind {A B} (m : M A) (k : A → M B) : M B :=
  λ h, let '(a, h') := m h in k a h'.

Notation "x <~ m ;; k" := (bind m (λ x, k))
  (at level 100, m at next level, right associativity).

Definition deref (r : ref) : M Series := λ h, (default [] (h !! r), h).

Definition alloc (s : Series) : M ref := λ h, (length h, h ++ [s]).

Definition dropna (r : ref) : M ref :=
  s <~ deref r ;; alloc (dropna s).

Definition len (r : ref) : M Z :=
  s <~ deref r ;; ret (len s).

Definition tail (k : Z) (r : ref) : M ref :=
  s <~ deref r ;; alloc (tail k s).

Definition diff (r : ref) : M ref :=
  s <~ deref r ;; alloc (diff s).

Definition all_lt0 (r : ref) : M bool :=
  s <~ deref r ;; ret (all_lt0 s).

(** The local name [closes] is rebound to the result of [dropna]; the
    caller's object is only read. *)
Definition is_consecutive_down (closes : ref) (n : Z) : M bool :=
  closes <~ dropna closes ;;
  l <~ len closes ;;
  if l <? n + 1 then ret false
  else
    t <~ tail (n + 1) closes ;;
    d <~ diff t ;;
    diffs <~ dropna d ;;
    all_lt0 diffs.

End Store.

(** ** Exceptions *)

Inductive exit_arg : Type :=
  | ExitCode (code : Z)
  | ExitMsg (msg : string).

Inductive exn : Type :=
  | SystemExit (arg : exit_arg)
  | KeyError (key : string)
  | IndexError
  | ExternalError (msg : string).

Inductive result (A : Type) : Type :=
  | Ok (a : A)
  | Raise (e : exn).
Arguments Ok {A} a.
Arguments Raise {A} e.

(** ** Strings *)

Definition nl : string := String "010"%char EmptyString.

(** [str.isspace] on the ASCII range: tab, line feed, vertical tab, form
    feed, carriage return, the four separators 0x1c-0x1f and the space.
    Bytes of non-ASCII characters are never whitespace here. *)
Definition isspace (c : ascii) : bool :=
  match c with
  | "009" | "010" | "011" | "012" | "013"
  | "028" | "029" | "030" | "031" | " " => true
  | _ => false
  end%char.

Fixpoint lstrip (s : string) : string :=
  match s with
  | EmptyString => EmptyString
  | String c r => if isspace c then lstrip r else s
  end.

Definition rstrip (s : string) : string :=
  String.rev (lstrip (String.rev s)).

(** [s.strip()] *)
Definition strip (s : string) : string := rstrip (lstrip s).

(** Truth value of a [str]: non-empty. *)
Definition truthy (s : string) : bool :=
  match s with EmptyString => false | String _ _ => true end.

(** [s.split(sep)] for a one-character separator. *)
Fixpoint split (sep : ascii) (s : string) : list string :=
  match s with
  | EmptyString => [EmptyString]
  | String c r =>
      if Ascii.eqb c sep then EmptyString :: split sep r
      else match split sep r with
           | h :: t => String c h :: t
           | [] => [String c EmptyString]
           end
  end.

(** [line.startswith("#")] *)
Definition startswith_hash (line : string) : bool :=
  match line with
  | String "#"%char _ => true
  | _ => false
  end.

(** Iterating a file opened in text mode: the content is cut after every
    line ending, and the endings CR LF and CR are read as LF (universal
    newlines).  A last line without ending is yielded as it is. *)
Fixpoint readlines (s : string) : list string :=
  match s with
  | EmptyString => []
  | String c r =>
      if Ascii.eqb c "010"%char then nl :: readlines r
      else if Ascii.eqb c "013"%char then
        match r with
        | String "010"%char r' => nl :: readlines r'
        | _ => nl :: readlines r
        end
      else match readlines r with
           | h :: t => String c h :: t
           | [] => [String c EmptyString]
           end
  end.

(** [sorted(set(l))].  The iteration order of a Python set is not
    specified, but the sorted list of a set of distinct strings is unique,
    so any enumeration of the set may be sorted. *)
Definition sorted_set (l : list string) : list string :=
  merge_sort String.le (remove_dups l).

(** ** The ticker set loader *)

Definition default_tickers : list string :=
  ["AAPL"; "MSFT"; "TSLA"; "AMZN"; "GOOGL"]%string.

(** [[t.strip() for t in cli_tickers.split(",") if t.strip()]] *)
Definition cli_symbols (cli_tickers : string) : list string :=
  strip <$> filter (λ t, truthy (strip t) = true) (split ","%char cli_tickers).

(** [[line.strip() for line in f
      if line.strip() and not line.startswith("#")]] *)
Definition file_symbols (content : string) : list string :=
  strip <$>
    filter (λ line, truthy (strip line) && negb (startswith_hash line) = true)
           (readlines content).

(** [tickers_txt] is the content of [tickers.txt], or [None] when the file
    does not exist. *)
Definition load_tickers (cli_tickers : string) (tickers_txt : option string)
  : result (list string) :=
  let tickers :=
    if truthy (strip cli_tickers) then cli_symbols cli_tickers
    else match tickers_txt with
         | Some content => file_symbols content
         | None => default_tickers
         end in
  match tickers with
  | [] => Raise (SystemExit (ExitMsg "No tickers provided."))
  | _ :: _ => Ok (sorted_set tickers)
  end.


(** The one source the code selects: the explicit input whenever it is not
    blank, else the symbol file when it exists, else the default set. *)
Definition selected_source (cli_tickers : string) (tickers_txt : option string)
  : list string :=
  if truthy (strip cli_tickers) then cli_symbols cli_tickers
  else match tickers_txt with
       | Some content => file_symbols content
       | None => default_tickers
       end.



(** ** Data frames and the normaliser *)

(** The result of [yf.download]: its columns are keyed by (ticker, field)
    under a [pd.MultiIndex], or by field alone. *)
Inductive DataFrame : Type :=
  | MultiIndexFrame (columns : gmap (string * string) Series)
  | IndexFrame (columns : gmap string Series).

(** A Python [dict] with string keys: the items in insertion order. *)
Module Dict.

Abbreviation t V := (list (string * V)) (only parsing).

Definition empty {V} : t V := [].

Fixpoint get {V} (d : t V) (k : string) : option V :=
  match d with
  | [] => None
  | (k', v) :: d' => if decide (k = k') then Some v else get d' k
  end.

(** [d[k] = v]: an existing key keeps its position. *)
Fixpoint set {V} (d : t V) (k : string) (v : V) : t V :=
  match d with
  | [] => [(k, v)]
  | (k', v') :: d' =>
      if decide (k = k') then (k, v) :: d' else (k', v') :: set d' k v
  end.

Definition keys {V} (d : t V) : list string := d.*1.

Definition items {V} (d : t V) : list (string * V) := d.

End Dict.

(** The column [(t, "Close")], when [(t, "Close") in data.columns]. *)
Definition close_column (columns : gmap (string * string) Series)
    (t : string) : option Series :=
  columns !! (t, "Close"%string).

(** One turn of the loop over the requested tickers. *)
Definition normalize_step (columns : gmap (string * string) Series)
    (closes_by_ticker : Dict.t Series) (t : string) : Dict.t Series :=
  match close_column columns t with
  | Some col => Dict.set closes_by_ticker t (dropna col)
  | None => closes_by_ticker
  end.

(** The normalising block of [main].  In the single-ticker branch the
    right-hand side [data["Close"]] is evaluated before [tickers[0]]. *)
Definition normalize (data : DataFrame) (tickers : list string)
  : result (Dict.t Series) :=
  match data with
  | MultiIndexFrame columns =>
      Ok (foldl (normalize_step columns) Dict.empty tickers)
  | IndexFrame columns =>
      match columns !! "Close"%string with
      | None => Raise (KeyError "Close")
      | Some col =>
          match tickers with
          | [] => Raise IndexError
          | t0 :: _ => Ok (Dict.set Dict.empty t0 (dropna col))
          end
      end
  end.

(** The matching loop of [main]. *)
Definition find_matches (closes_by_ticker : Dict.t Series) (n : Z)
  : list (string * Series) :=
  filter (λ m, is_consecutive_down m.2 n = true) (Dict.items closes_by_ticker).

(** ** The report builder, the notifier and [main] *)

Record Args : Type := {
  args_tickers : string;
  args_days_check : Z;
  args_days_fetch : Z;
  args_last_n_to_show : Z;
  args_email_to : string;
  args_email_from : string;
  args_smtp_user : string;
  args_smtp_pass : string;
  args_smtp_host : string;
  args_smtp_port : Z
}.

(** What the run does to the outside world, in order. *)
Inductive event : Type :=
  | Download (tickers : list string) (period : string)
  | Print (text : string)
  | Sendmail (subject html_body email_from email_to smtp_host : string)
             (smtp_port : Z) (smtp_user smtp_pass : string).

(** How the process ends: its exit status and what the interpreter writes
    to the standard error stream. *)
Record outcome : Type := {
  trace : list event;
  exit_status : Z;
  stderr : option string
}.

(** An exception that reaches the top level.  [SystemExit] with an integer
    exits with that status; with a message it prints the message and exits
    with status 1, as every other uncaught exception does. *)
Definition uncaught (tr : list event) (e : exn) : outcome :=
  match e with
  | SystemExit (ExitCode c) =>
      {| trace := tr; exit_status := c; stderr := None |}
  | SystemExit (ExitMsg m) =>
      {| trace := tr; exit_status := 1; stderr := Some m |}
  | KeyError k =>
      {| trace := tr; exit_status := 1; stderr := Some ("KeyError: " +:+ k) |}
  | IndexError =>
      {| trace := tr; exit_status := 1;
         stderr := Some "IndexError: list index out of range"%string |}
  | ExternalError m =>
      {| trace := tr; exit_status := 1; stderr := Some m |}
  end.

Definition dq : string := String "034"%char EmptyString.

Section Report.

(** Library formatters: [idx.strftime('%Y-%m-%d')] and
    [f"{val:,.2f}"]. *)
Variable strftime_ymd : Timestamp → string.
Variable format_price : pyfloat → string.

Definition cell (p : Timestamp * pyfloat) : string :=
  "<div>" +:+ strftime_ymd p.1 +:+ ": " +:+ format_price p.2 +:+ "</div>".

Definition row (last_n_to_show : Z) (m : string * Series) : string :=
  let closes := tail last_n_to_show (dropna m.2) in
  let cells := String.concat EmptyString (cell <$> closes) in
  "<tr><td><b>" +:+ m.1 +:+ "</b></td><td>" +:+ cells +:+ "</td></tr>".

Definition table (rows : list string) (last_n_to_show : Z) : string :=
  nl +:+
  "    <table border=" +:+ dq +:+ "1" +:+ dq +:+ " cellpadding=" +:+ dq +:+
    "6" +:+ dq +:+ " cellspacing=" +:+ dq +:+ "0" +:+ dq +:+ " style=" +:+
    dq +:+ "border-collapse:collapse;" +:+ dq +:+ ">" +:+ nl +:+
  "      <thead>" +:+ nl +:+
  "        <tr><th>Ticker</th><th>Last " +:+ pretty last_n_to_show +:+
    " closes</th></tr>" +:+ nl +:+
  "      </thead>" +:+ nl +:+
  "      <tbody>" +:+ nl +:+
  "        " +:+ String.concat EmptyString rows +:+ nl +:+
  "      </tbody>" +:+ nl +:+
  "    </table>" +:+ nl +:+
  "    ".

Definition build_email_html (matches : list (string * Series))
    (last_n_to_show : Z) : option string :=
  match matches with
  | [] => None
  | _ :: _ =>
      let rows := row last_n_to_show <$> matches in
      Some (
        nl +:+
        "    <html>" +:+ nl +:+
        "    <body>" +:+ nl +:+
        "      <p>The following tickers have <b>7 consecutive down days</b> (by daily close):</p>" +:+ nl +:+
        "      " +:+ table rows last_n_to_show +:+ nl +:+
        "      <p style=" +:+ dq +:+ "font-size:12px;color:#666;" +:+ dq +:+ ">" +:+ nl +:+
        "        Source: Yahoo Finance (via yfinance). Trading days only; weekends/holidays automatically skipped." +:+ nl +:+
        "      </p>" +:+ nl +:+
        "    </body>" +:+ nl +:+
        "    </html>" +:+ nl +:+
        "    ")
  end.

(** The outside world of one run: the symbol file, the answer of the data
    provider, the clock and the answer of the mail server. *)
Record World : Type := {
  tickers_txt : option string;
  yf_download : list string → string → result DataFrame;
  now_utc : string;
  smtp : option exn
}.

(** [send_email]: hands the message to the server, which may refuse it. *)
Definition send_email (w : World) (tr : list event)
    (subject html_body : string) (a : Args) : list event * option exn :=
  (tr ++ [Sendmail subject html_body (args_email_from a) (args_email_to a)
                   (args_smtp_host a) (args_smtp_port a)
                   (args_smtp_user a) (args_smtp_pass a)],
   smtp w).

Definition main (a : Args) (w : World) : outcome :=
  match load_tickers (args_tickers a) (tickers_txt w) with
  | Raise e => uncaught [] e
  | Ok tickers =>
    let period := pretty (args_days_fetch a) +:+ "d" in
    let tr := [Download tickers period] in
    match yf_download w tickers period with
    | Raise e => uncaught tr e
    | Ok data =>
      match normalize data tickers with
      | Raise e => uncaught tr e
      | Ok closes_by_ticker =>
        let matches := find_matches closes_by_ticker (args_days_check a) in
        match matches with
        | _ :: _ =>
          let subject :=
            "[Stock Alert] " +:+ pretty (Z.of_nat (length matches)) +:+
            " ticker(s) down " +:+ pretty (args_days_check a) +:+
            " days in a row — " +:+ now_utc w in
          let html_body := build_email_html matches (args_last_n_to_show a) in
          if negb (truthy (args_smtp_user a)) || negb (truthy (args_smtp_pass a))
          then
            uncaught
              (tr ++ [Print ("WARNING: SMTP credentials not set; printing email to stdout instead." +:+ nl);
                      Print subject;
                      Print (default EmptyString html_body)])
              (SystemExit (ExitCode 0))
          else
            match send_email w tr subject (default EmptyString html_body) a with
            | (tr', Some e) => uncaught tr' e
            | (tr', None) =>
              {| trace := tr' ++ [Print ("Email sent for " +:+
                                         pretty (Z.of_nat (length matches)) +:+
                                         " ticker(s).")];
                 exit_status := 0; stderr := None |}
            end
        | [] =>
          {| trace := tr ++ [Print "No tickers with 7 consecutive down days today."];
             exit_status := 0; stderr := None |}
        end
      end
    end
  end.

End Report.

(** ** Specification-side notions for the detector *)

(** A series without missing values. *)
Definition no_missing (s : Series) : Prop :=
  Forall (λ p, isna p.2 = false) s.

(** The day-over-day differences of a list of prices. *)
Fixpoint deltas (l : list Qc) : list Qc :=
  match l with
  | a :: (b :: _) as r => (b - a)%Qc :: deltas r
  | _ => []
  end.

(** [q < 0] on a price difference. *)
Definition neg (q : Qc) : bool := bool_decide (q < 0)%Qc.

(** The trailing window of [n + 1] prices exists and each of its [n]
    day-over-day differences is strictly negative.  The pairs of the window
    are the positions [(i, i + 1)] with [length p - (n + 1) ≤ i]. *)
Definition trailing_strictly_down (p : list Qc) (n : Z) : Prop :=
  n + 1 ≤ Z.of_nat (length p) ∧
  ∀ (i : nat) (a b : Qc),
    Z.of_nat (length p) - (n + 1) ≤ Z.of_nat i →
    p !! i = Some a → p !! S i = Some b → (b - a < 0)%Qc.

(** A pair of the trailing window with a zero difference. *)
Definition flat_day_in_window (p : list Qc) (n : Z) : Prop :=
  ∃ (i : nat) (a b : Qc),
    Z.of_nat (length p) - (n + 1) ≤ Z.of_nat i ∧
    p !! i = Some a ∧ p !! S i = Some b ∧ (b - a = 0)%Qc.

(** How many leading rows [tail k] skips in a series of [m] rows. *)
Definition tail_skip (k : Z) (m : nat) : nat :=
  if k =? 0 then m
  else if 0 <? k then (m - Z.to_nat k)%nat
  else Z.to_nat (- k).

(** ** Notions used to describe series, mappings and runs *)


(** The entry that one turn of the normalising loop makes for [t]. *)
Definition close_entry (columns : gmap (string * string) Series)
    (t : string) : option (string * Series) :=
  match close_column columns t with
  | Some col => Some (t, dropna col)
  | None => None
  end.

(** The entry for [t] when its column is in a down-trend. *)
Definition match_entry (columns : gmap (string * string) Series) (n : Z)
    (t : string) : option (string * Series) :=
  match close_column columns t with
  | Some col => if is_consecutive_down col n then Some (t, dropna col) else None
  | None => None
  end.

Definition is_download (ev : event) : bool :=
  match ev with Download _ _ => true | _ => false end.

Definition is_sendmail (ev : event) : bool :=
  match ev with Sendmail _ _ _ _ _ _ _ _ => true | _ => false end.

(** ** Sample inputs *)

(** The series with the closes [l] on consecutive sessions. *)
Definition series_of (l : list Z) : Series :=
  imap (λ i x, (Z.of_nat i, Fin (Qc_of_Z x))) l.

Definition sample_args (tickers : string) (days_check : Z) : Args :=
  {| args_tickers := tickers; args_days_check := days_check;
     args_days_fetch := 30; args_last_n_to_show := 4;
     args_email_to := "you@example.com"; args_email_from := EmptyString;
     args_smtp_user := EmptyString; args_smtp_pass := EmptyString;
     args_smtp_host := "smtp.gmail.com"; args_smtp_port := 465 |}.

(** A world with a symbol file and a provider that knows one column. *)
Definition sample_world (file : option string) (aapl : list Z) : World :=
  {| tickers_txt := file;
     yf_download := λ _ _,
       Ok (MultiIndexFrame {[ ("AAPL", "Close")%string := series_of aapl ]});
     now_utc := "2024-01-01 00:00 UTC";
     smtp := None |}.

Example scenario_1 :
  is_consecutive_down (series_of [10; 9; 8; 7; 6; 5; 4; 3]) 7 = true.
Proof. vm_compute. reflexivity. Qed.

Example scenario_2 :
  is_consecutive_down (series_of [10; 9; 8; 7; 6; 5; 4; 4]) 7 = false.
Proof. vm_compute. reflexivity. Qed.

Example scenario_3 :
  is_consecutive_down (series_of [10; 9; 8; 7; 6]) 7 = false.
Proof. vm_compute. reflexivity. Qed.

(** * Properties *)

(** ** pandas operations *)

Section Pandas.

Implicit Types (s : Series) (k : Z).

Global Instance Fin_inj : Inj (=) (=) Fin.
Proof. by intros q1 q2 [= ->]. Qed.

Lemma dropna_no_missing s : no_missing (dropna s).
Proof.
  unfold no_missing, dropna. apply Forall_forall.
  intros p Hp. apply list_elem_of_filter in Hp. tauto.
Qed.

Lemma dropna_id s : no_missing s → dropna s = s.
Proof.
  unfold no_missing, dropna. induction 1 as [|p s Hp Hs IH]; [done|].
  rewrite filter_cons_True by done. by rewrite IH.
Qed.

Lemma prices_dropna s : prices (dropna s) = prices s.
Proof.
  unfold prices, dropna. induction s as [|[i x] s IH]; [done|].
  destruct x as [|q].
  - rewrite filter_cons_False by (simpl; congruence). exact IH.
  - rewrite filter_cons_True by done. simpl. f_equal. exact IH.
Qed.

Lemma values_no_missing s : no_missing s → values s = Fin <$> prices s.
Proof.
  unfold values, prices. induction 1 as [|[i x] s Hp Hs IH]; [done|].
  destruct x as [|q]; [done|]. simpl. f_equal. exact IH.
Qed.

Lemma length_prices s : no_missing s → length (prices s) = length s.
Proof.
  intros Hs. rewrite <-(length_fmap Fin), <-values_no_missing by done.
  unfold values. by rewrite length_fmap.
Qed.

Lemma no_missing_drop s m : no_missing s → no_missing (drop m s).
Proof. apply Forall_drop. Qed.

Lemma prices_drop s m : no_missing s → prices (drop m s) = drop m (prices s).
Proof.
  intros Hs. apply (inj (fmap (M:=list) Fin)).
  rewrite <-values_no_missing by by apply no_missing_drop.
  rewrite fmap_drop, <-values_no_missing by done.
  unfold values. by rewrite fmap_drop.
Qed.

Lemma tail_drop k s : tail k s = drop (tail_skip k (length s)) s.
Proof.
  unfold tail, tail_skip. destruct (k =? 0); [by rewrite drop_all|].
  by destruct (0 <? k).
Qed.

Lemma length_tail_pos k s :
  0 < k → Z.of_nat (length (tail k s)) = Z.min k (Z.of_nat (length s)).
Proof.
  intros Hk. unfold tail.
  destruct (Z.eqb_spec k 0) as [|_]; [lia|].
  destruct (Z.ltb_spec 0 k) as [_|]; [|lia].
  rewrite length_drop. lia.
Qed.

End Pandas.

(** ** The down-trend detector *)

Section Detector.

Implicit Types (s closes : Series) (n k : Z) (l : list Qc).

Lemma all_lt0_diff_from a s :
  no_missing s →
  all_lt0 (dropna (diff_from (Fin a) s)) = forallb neg (deltas (a :: prices s)).
Proof.
  intros Hs. revert a. induction Hs as [|[i x] s Hx Hs IH]; intros a; [done|].
  destruct x as [|b]; [done|].
  change (diff_from (Fin a) ((i, Fin b) :: s))
    with ((i, Fin (b - a)%Qc) :: diff_from (Fin b) s).
  unfold dropna. rewrite filter_cons_True by done.
  change (prices ((i, Fin b) :: s)) with (b :: prices s).
  change (deltas (a :: b :: prices s))
    with ((b - a)%Qc :: deltas (b :: prices s)).
  unfold all_lt0, values. rewrite fmap_cons. simpl forallb.
  f_equal. apply IH.
Qed.

Lemma all_lt0_diff s :
  no_missing s → all_lt0 (dropna (diff s)) = forallb neg (deltas (prices s)).
Proof.
  intros Hs. destruct Hs as [|[i x] s Hx Hs]; [done|].
  destruct x as [|a]; [done|].
  change (diff ((i, Fin a) :: s)) with ((i, NaN) :: diff_from (Fin a) s).
  unfold dropna at 1. rewrite filter_cons_False by (simpl; congruence).
  by apply all_lt0_diff_from.
Qed.

(** The detector in terms of the valid prices of the trailing window. *)
Lemma is_consecutive_down_window closes n :
  is_consecutive_down closes n =
    if Z.of_nat (length (prices closes)) <? n + 1 then false
    else forallb neg (deltas (prices (tail (n + 1) (dropna closes)))).
Proof.
  unfold is_consecutive_down, len.
  pose proof (dropna_no_missing closes) as Hd.
  rewrite <-(length_prices (dropna closes)), prices_dropna by done.
  destruct (_ <? _); [done|].
  apply all_lt0_diff. rewrite tail_drop. by apply no_missing_drop.
Qed.

Lemma prices_tail closes n :
  prices (tail (n + 1) (dropna closes)) =
    drop (tail_skip (n + 1) (length (prices closes))) (prices closes).
Proof.
  pose proof (dropna_no_missing closes) as Hd.
  rewrite tail_drop, prices_drop by done.
  by rewrite <-(length_prices (dropna closes)), prices_dropna by done.
Qed.

Lemma forallb_neg_deltas l :
  forallb neg (deltas l) = true ↔
  ∀ (i : nat) a b, l !! i = Some a → l !! S i = Some b → (b - a < 0)%Qc.
Proof.
  induction l as [|a [|b l] IH].
  - split; [|done]. intros _ i a b Hi. by rewrite lookup_nil in Hi.
  - split; [|done]. intros _ [|i] a' b' _ Hi; by rewrite ?lookup_nil in Hi.
  - change (deltas (a :: b :: l)) with ((b - a)%Qc :: deltas (b :: l)).
    simpl forallb. rewrite andb_true_iff, IH. unfold neg at 1.
    rewrite bool_decide_eq_true. split.
    + intros [Hab Hl] [|i] a' b' Ha' Hb'.
      * by simplify_eq/=.
      * by apply (Hl i).
    + intros H. split.
      * by apply (H 0%nat).
      * intros i a' b' Ha' Hb'. by apply (H (S i)).
Qed.

Lemma window_strictly_down_iff l n :
  0 ≤ n → n + 1 ≤ Z.of_nat (length l) →
  forallb neg (deltas (drop (tail_skip (n + 1) (length l)) l)) = true ↔
  trailing_strictly_down l n.
Proof.
  intros Hn Hlen. rewrite forallb_neg_deltas. unfold trailing_strictly_down.
  assert (tail_skip (n + 1) (length l) = (length l - Z.to_nat (n + 1))%nat)
    as ->.
  { unfold tail_skip. destruct (Z.eqb_spec (n + 1) 0); [lia|].
    by destruct (Z.ltb_spec 0 (n + 1)); [|lia]. }
  set (k := (length l - Z.to_nat (n + 1))%nat). split.
  - intros H. split; [done|]. intros i a b Hi Ha Hb.
    apply (H (i - k)%nat); rewrite lookup_drop.
    + by replace (k + (i - k))%nat with i by lia.
    + by replace (k + S (i - k))%nat with (S i) by lia.
  - intros [_ H] j a b Ha Hb. rewrite lookup_drop in Ha, Hb.
    apply (H (k + j)%nat); [lia|done|].
    by replace (S (k + j)) with (k + S j)%nat by lia.
Qed.

Lemma deltas_short l : (length l ≤ 1)%nat → deltas l = [].
Proof. destruct l as [|a [|b l]]; simpl; [done..|lia]. Qed.

(** The verdict is a function of the values of the trailing window. *)
Lemma is_consecutive_down_tail_values n s1 s2 :
  values (tail (n + 1) (dropna s1)) = values (tail (n + 1) (dropna s2)) →
  is_consecutive_down s1 n = is_consecutive_down s2 n.
Proof.
  intros Hv. rewrite !is_consecutive_down_window.
  assert (prices (tail (n + 1) (dropna s1))
          = prices (tail (n + 1) (dropna s2))) as ->.
  { pose proof (dropna_no_missing s1). pose proof (dropna_no_missing s2).
    apply (inj (fmap (M:=list) Fin)).
    rewrite <-!values_no_missing; [done|..];
      rewrite tail_drop; by apply no_missing_drop. }
  destruct (Z.le_gt_cases (n + 1) 0) as [Hn|Hn].
  - destruct (Z.ltb_spec (Z.of_nat (length (prices s1))) (n + 1)); [lia|].
    by destruct (Z.ltb_spec (Z.of_nat (length (prices s2))) (n + 1)); [lia|].
  - assert (Z.min (n + 1) (Z.of_nat (length (prices s1)))
            = Z.min (n + 1) (Z.of_nat (length (prices s2)))) as Hmin.
    { rewrite <-(prices_dropna s1), <-(prices_dropna s2).
      rewrite !length_prices by apply dropna_no_missing.
      rewrite <-!length_tail_pos by lia.
      unfold values in Hv. apply (f_equal length) in Hv.
      rewrite !length_fmap in Hv. by rewrite Hv. }
    destruct (Z.ltb_spec (Z.of_nat (length (prices s1))) (n + 1));
      destruct (Z.ltb_spec (Z.of_nat (length (prices s2))) (n + 1));
      (done || lia).
Qed.

End Detector.

(** C1.  For every series and every threshold [n] (a count of sessions,
    [0 ≤ n]), the detector returns true if and only if, after dropping the
    missing values, the series has at least [n + 1] points and each of the
    [n] day-over-day differences over the trailing [n + 1] points is
    strictly negative.  A zero difference in the window makes the result
    false, and a series with fewer than [n + 1] valid points yields false;
    the detector is a total function, so no input makes it fail. *)
Theorem is_consecutive_down_spec (closes : Series) (n : Z) :
  0 ≤ n →
  (is_consecutive_down closes n = true ↔
     trailing_strictly_down (prices closes) n) ∧
  (flat_day_in_window (prices closes) n →
     is_consecutive_down closes n = false) ∧
  (Z.of_nat (length (prices closes)) < n + 1 →
     is_consecutive_down closes n = false).
Proof.
  intros Hn.
  assert (is_consecutive_down closes n = true ↔
          trailing_strictly_down (prices closes) n) as Hiff.
  { rewrite is_consecutive_down_window, prices_tail.
    destruct (Z.ltb_spec (Z.of_nat (length (prices closes))) (n + 1)) as [Hlt|Hge].
    - split; [done|]. intros [Hlen _]. lia.
    - by apply window_strictly_down_iff. }
  split; [exact Hiff|]. split.
  - intros (i & a & b & Hi & Ha & Hb & Hab).
    apply not_true_is_false. intros Hres.
    apply Hiff in Hres as [_ Hall]. specialize (Hall i a b Hi Ha Hb).
    rewrite Hab in Hall. by apply Qclt_not_eq in Hall.
  - intros Hshort.
    apply not_true_is_false. intros Hres.
    apply Hiff in Hres as [Hlen _]. lia.
Qed.

Lemma is_consecutive_down_spec_witness :
  0 ≤ 2 ∧
  ((is_consecutive_down (series_of [5; 4; 3]) 2 = true ↔
      trailing_strictly_down (prices (series_of [5; 4; 3])) 2) ∧
   (flat_day_in_window (prices (series_of [5; 4; 3])) 2 →
      is_consecutive_down (series_of [5; 4; 3]) 2 = false) ∧
   (Z.of_nat (length (prices (series_of [5; 4; 3]))) < 2 + 1 →
      is_consecutive_down (series_of [5; 4; 3]) 2 = false)).
Proof.
  split; [lia|]. apply (is_consecutive_down_spec (series_of [5; 4; 3]) 2). lia.
Defined.

(** C2.  For every threshold [n], two series whose trailing [n + 1] valid
    points carry the same values get the same verdict: the detector looks
    at nothing but the trailing window. *)
Theorem is_consecutive_down_trailing_only (n : Z) (s1 s2 : Series) :
  values (tail (n + 1) (dropna s1)) = values (tail (n + 1) (dropna s2)) →
  is_consecutive_down s1 n = is_consecutive_down s2 n.
Proof. apply is_consecutive_down_tail_values. Qed.

Lemma is_consecutive_down_trailing_only_witness :
  values (tail (2 + 1) (dropna (series_of [1; 9; 5; 4; 3])))
    = values (tail (2 + 1) (dropna ((0, NaN) :: series_of [7; 7; 5; 4; 3]))) ∧
  is_consecutive_down (series_of [1; 9; 5; 4; 3]) 2
    = is_consecutive_down ((0, NaN) :: series_of [7; 7; 5; 4; 3]) 2.
Proof.
  split; [reflexivity|].
  apply (is_consecutive_down_trailing_only 2); reflexivity.
Defined.

(** Rows before the trailing window never change the verdict. *)
Corollary is_consecutive_down_earlier_rows (n : Z) (earlier s : Series) :
  0 ≤ n → n + 1 ≤ Z.of_nat (length (prices s)) →
  is_consecutive_down (earlier ++ s) n = is_consecutive_down s n.
Proof.
  intros Hn Hlen. apply is_consecutive_down_tail_values.
  f_equal. unfold dropna. rewrite filter_app.
  fold (dropna earlier) (dropna s).
  pose proof (dropna_no_missing s) as Hs.
  assert (Z.of_nat (length (dropna s)) = Z.of_nat (length (prices s))) as Hl.
  { by rewrite <-(prices_dropna s), length_prices. }
  unfold tail. destruct (Z.eqb_spec (n + 1) 0); [lia|].
  destruct (Z.ltb_spec 0 (n + 1)); [|lia].
  rewrite length_app, drop_app_ge by lia. f_equal. lia.
Qed.

(** Negative thresholds are outside the detector's contract; the code
    accepts them and pandas' [tail] then drops leading rows instead. *)
Example is_consecutive_down_minus_one :
  is_consecutive_down (series_of [1; 2; 3]) (-1) = true.
Proof. reflexivity. Qed.

Example is_consecutive_down_minus_two :
  is_consecutive_down (series_of [1; 2; 3]) (-2) = false ∧
  is_consecutive_down (series_of [1; 3; 2]) (-2) = true.
Proof. split; reflexivity. Qed.

(** C10.  With [n = 0] the detector returns true for every series that has
    at least one valid point: there is no difference to test. *)
Theorem is_consecutive_down_zero (closes : Series) :
  prices closes ≠ [] → is_consecutive_down closes 0 = true.
Proof.
  intros Hne. rewrite is_consecutive_down_window, prices_tail.
  destruct (prices closes) as [|a l] eqn:Hp; [done|].
  destruct (Z.ltb_spec (Z.of_nat (length (a :: l))) (0 + 1)) as [Hlt|_].
  { simpl in Hlt. lia. }
  rewrite deltas_short; [done|].
  rewrite length_drop. unfold tail_skip. simpl. lia.
Qed.

Lemma is_consecutive_down_zero_witness :
  prices (series_of [4; 4]) ≠ [] ∧ is_consecutive_down (series_of [4; 4]) 0 = true.
Proof.
  split; [discriminate|].
  apply (is_consecutive_down_zero (series_of [4; 4])). discriminate.
Defined.

(** ** The detector over the object store *)

Section StoreRuns.

Implicit Types (h : Store.store) (r : Store.ref) (s : Series).

Lemma lookup_alloc h s : (h ++ [s]) !! length h = Some s.
Proof. by apply list_lookup_middle. Qed.

Lemma lookup_alloc_old h r s s' :
  h !! r = Some s → (h ++ [s']) !! r = Some s.
Proof. intros Hr. by apply lookup_app_l_Some. Qed.

Lemma run_deref h r s : h !! r = Some s → Store.deref r h = (s, h).
Proof. intros Hr. unfold Store.deref. by rewrite Hr. Qed.

Lemma run_dropna h r s :
  h !! r = Some s → Store.dropna r h = (length h, h ++ [dropna s]).
Proof.
  intros Hr. unfold Store.dropna, Store.bind. by rewrite (run_deref h r s).
Qed.

Lemma run_tail h r s k :
  h !! r = Some s → Store.tail k r h = (length h, h ++ [tail k s]).
Proof.
  intros Hr. unfold Store.tail, Store.bind. by rewrite (run_deref h r s).
Qed.

Lemma run_diff h r s :
  h !! r = Some s → Store.diff r h = (length h, h ++ [diff s]).
Proof.
  intros Hr. unfold Store.diff, Store.bind. by rewrite (run_deref h r s).
Qed.

Lemma run_len h r s : h !! r = Some s → Store.len r h = (len s, h).
Proof.
  intros Hr. unfold Store.len, Store.bind. by rewrite (run_deref h r s).
Qed.

Lemma run_all_lt0 h r s :
  h !! r = Some s → Store.all_lt0 r h = (all_lt0 s, h).
Proof.
  intros Hr. unfold Store.all_lt0, Store.bind. by rewrite (run_deref h r s).
Qed.

(** A call computes the verdict of the pure detector on the object it is
    given and only appends new objects to the store. *)
Lemma run_is_consecutive_down h r s n :
  h !! r = Some s →
  ∃ fresh,
    Store.is_consecutive_down r n h = (is_consecutive_down s n, h ++ fresh).
Proof.
  intros Hr. unfold Store.is_consecutive_down, Store.bind at 1.
  rewrite (run_dropna h r s Hr). unfold Store.bind at 1.
  rewrite (run_len _ _ (dropna s) (lookup_alloc h _)).
  unfold is_consecutive_down.
  destruct (len (dropna s) <? n + 1).
  { by exists [dropna s]. }
  unfold Store.bind at 1.
  rewrite (run_tail _ _ (dropna s) _ (lookup_alloc h _)).
  unfold Store.bind at 1.
  rewrite (run_diff _ _ _ (lookup_alloc _ _)).
  unfold Store.bind at 1.
  rewrite (run_dropna _ _ _ (lookup_alloc _ _)).
  rewrite (run_all_lt0 _ _ _ (lookup_alloc _ _)).
  eexists [_; _; _; _]. f_equal. by rewrite <-!app_assoc.
Qed.

End StoreRuns.

(** C9.  Calling the detector twice on the same series object with the same
    [n] yields the same result both times, and no call changes an object
    that was in the store before it: the argument is left as it was. *)
Theorem is_consecutive_down_idempotent
    (h : Store.store) (closes : Store.ref) (s : Series) (n : Z) :
  h !! closes = Some s →
  let first := Store.is_consecutive_down closes n h in
  let second := Store.is_consecutive_down closes n first.2 in
  first.1 = second.1 ∧
  first.2 !! closes = Some s ∧ second.2 !! closes = Some s ∧
  h `prefix_of` first.2 ∧ first.2 `prefix_of` second.2.
Proof.
  intros Hr. simpl.
  destruct (run_is_consecutive_down h closes s n Hr) as [f1 ->]. simpl.
  assert ((h ++ f1) !! closes = Some s) as Hr1 by by apply lookup_app_l_Some.
  destruct (run_is_consecutive_down (h ++ f1) closes s n Hr1) as [f2 ->]. simpl.
  repeat split; [done| |by apply prefix_app_r..].
  by apply lookup_app_l_Some.
Qed.

Lemma is_consecutive_down_idempotent_witness :
  let h := [series_of [9; 8]; series_of [5; 4; 3]] in
  h !! 1%nat = Some (series_of [5; 4; 3]) ∧
  (Store.is_consecutive_down 1%nat 2 h).1
    = (Store.is_consecutive_down 1%nat 2
         (Store.is_consecutive_down 1%nat 2 h).2).1 ∧
  (Store.is_consecutive_down 1%nat 2 h).2 !! 1%nat
    = Some (series_of [5; 4; 3]).
Proof.
  split; [reflexivity|].
  pose proof (is_consecutive_down_idempotent
                [series_of [9; 8]; series_of [5; 4; 3]] 1%nat
                (series_of [5; 4; 3]) 2 eq_refl) as (H1 & H2 & _).
  split; [exact H1|exact H2].
Defined.

(** ** The report builder *)

(** C3.  The report builder returns the absent value [None] for the empty
    match set and a report for every non-empty one; so it is absent exactly
    when the match set is empty. *)
Theorem build_email_html_absent_iff
    (strftime_ymd : Timestamp → string) (format_price : pyfloat → string)
    (m : string * Series) (matches : list (string * Series))
    (last_n_to_show : Z) :
  build_email_html strftime_ymd format_price [] last_n_to_show = None ∧
  is_Some (build_email_html strftime_ymd format_price (m :: matches)
             last_n_to_show) ∧
  (build_email_html strftime_ymd format_price matches last_n_to_show = None ↔
   matches = []).
Proof.
  split; [done|]. split; [by eexists|].
  destruct matches; simpl; split; (done || discriminate).
Qed.

(** ** Dictionaries and the normaliser *)

Section DictFacts.

Context {V : Type}.
Implicit Types (d : Dict.t V) (k t : string) (v : V).

Lemma dict_get_set d k v t :
  Dict.get (Dict.set d k v) t = if decide (t = k) then Some v else Dict.get d t.
Proof.
  induction d as [|[k' v'] d IH]; simpl.
  - by destruct (decide (t = k)).
  - destruct (decide (k = k')) as [->|Hne]; simpl.
    + by destruct (decide (t = k')).
    + rewrite IH. destruct (decide (t = k')) as [->|]; [|done].
      by rewrite decide_False.
Qed.

Lemma dict_keys_set d k v t :
  t ∈ Dict.keys (Dict.set d k v) ↔ t = k ∨ t ∈ Dict.keys d.
Proof.
  unfold Dict.keys. induction d as [|[k' v'] d IH]; simpl.
  - rewrite list_elem_of_singleton, elem_of_nil. tauto.
  - destruct (decide (k = k')) as [->|Hne]; simpl.
    + rewrite !elem_of_cons. tauto.
    + rewrite !elem_of_cons, IH. tauto.
Qed.

Lemma dict_keys_set_NoDup d k v :
  NoDup (Dict.keys d) → NoDup (Dict.keys (Dict.set d k v)).
Proof.
  unfold Dict.keys. induction d as [|[k' v'] d IH]; simpl; intros Hd.
  - apply NoDup_singleton.
  - apply NoDup_cons in Hd as [Hk' Hd].
    destruct (decide (k = k')) as [->|Hne]; simpl.
    + by apply NoDup_cons.
    + apply NoDup_cons. split; [|by apply IH].
      intros [?|?]%dict_keys_set; [congruence|done].
Qed.

Lemma dict_get_is_Some d t : is_Some (Dict.get d t) ↔ t ∈ Dict.keys d.
Proof.
  unfold Dict.keys. induction d as [|[k' v'] d IH]; simpl.
  - rewrite elem_of_nil. split; [by intros [? ?]|done].
  - rewrite elem_of_cons. destruct (decide (t = k')) as [->|Hne].
    + split; [by left|by eexists].
    + rewrite IH. tauto.
Qed.

Lemma dict_items_set d k v (P : V → Prop) :
  P v → Forall (λ m, P m.2) (Dict.items d) →
  Forall (λ m, P m.2) (Dict.items (Dict.set d k v)).
Proof.
  unfold Dict.items. intros Hv. induction 1 as [|[k' v'] d Hk' Hd IH]; simpl.
  - by repeat constructor.
  - destruct (decide (k = k')); constructor; done.
Qed.

End DictFacts.

Section Normalizer.

Implicit Types (columns : gmap (string * string) Series)
               (tickers : list string) (d : Dict.t Series).

Lemma normalize_step_keys columns d t u :
  u ∈ Dict.keys (normalize_step columns d t) ↔
  u ∈ Dict.keys d ∨ (u = t ∧ is_Some (close_column columns t)).
Proof.
  unfold normalize_step.
  destruct (close_column columns t) as [col|].
  - rewrite dict_keys_set. split; [intros [->|?]|intros [?|[-> _]]]; eauto.
  - split; [by left|]. intros [?|[_ [? ?]]]; done.
Qed.

Lemma normalize_loop_keys columns tickers d u :
  u ∈ Dict.keys (foldl (normalize_step columns) d tickers) ↔
  u ∈ Dict.keys d ∨ (u ∈ tickers ∧ is_Some (close_column columns u)).
Proof.
  revert d. induction tickers as [|t tickers IH]; intros d; simpl.
  - rewrite elem_of_nil. tauto.
  - rewrite IH, normalize_step_keys, elem_of_cons.
    split; [intros [[?|[-> ?]]|[? ?]]|intros [?|[[->|?] ?]]]; eauto.
Qed.

Lemma normalize_loop_NoDup columns tickers d :
  NoDup (Dict.keys d) →
  NoDup (Dict.keys (foldl (normalize_step columns) d tickers)).
Proof.
  revert d. induction tickers as [|t tickers IH]; intros d Hd; [done|].
  simpl. apply IH. unfold normalize_step.
  destruct (close_column _ _); [by apply dict_keys_set_NoDup|done].
Qed.

Lemma normalize_loop_get columns tickers d u :
  Dict.get (foldl (normalize_step columns) d tickers) u =
    if decide (u ∈ tickers) then
      match close_column columns u with
      | Some col => Some (dropna col)
      | None => Dict.get d u
      end
    else Dict.get d u.
Proof.
  revert d. induction tickers as [|t tickers IH]; intros d.
  - by destruct (decide (u ∈ [])) as [?%elem_of_nil|].
  - change (foldl (normalize_step columns) d (t :: tickers))
      with (foldl (normalize_step columns) (normalize_step columns d t) tickers).
    rewrite IH. unfold normalize_step.
    destruct (decide (u ∈ tickers)) as [Hin|Hnin].
    + destruct (decide (u ∈ t :: tickers)) as [_|[]]; [|by right].
      destruct (close_column columns u) as [col|] eqn:Hu; [done|].
      destruct (close_column columns t) as [colt|] eqn:Ht; [|done].
      rewrite dict_get_set. destruct (decide (u = t)) as [->|]; [|done].
      congruence.
    + destruct (decide (u = t)) as [->|Hne].
      * destruct (decide (t ∈ t :: tickers)) as [_|[]]; [|by left].
        destruct (close_column columns t) as [col|]; [|done].
        rewrite dict_get_set. by destruct (decide (t = t)).
      * destruct (decide (u ∈ t :: tickers)) as [[?|?]%elem_of_cons|_];
          [done..|].
        destruct (close_column columns t) as [col|]; [|done].
        rewrite dict_get_set. by destruct (decide (u = t)).
Qed.

Lemma normalize_loop_no_missing columns tickers d :
  Forall (λ m, no_missing m.2) (Dict.items d) →
  Forall (λ m, no_missing m.2)
         (Dict.items (foldl (normalize_step columns) d tickers)).
Proof.
  revert d. induction tickers as [|t tickers IH]; intros d Hd; [done|].
  simpl. apply IH. unfold normalize_step.
  destruct (close_column _ _); [|done].
  apply (dict_items_set d t _ no_missing); [apply dropna_no_missing|done].
Qed.

End Normalizer.

(** C4.  For every combined-shape fetch result and every list of requested
    symbols the normaliser returns a mapping (it raises nothing) whose keys
    are exactly the requested symbols that have a closing-price column; a
    requested symbol without one is left out.  Each key is bound to its
    column with the missing values dropped. *)
Theorem normalize_combined
    (columns : gmap (string * string) Series) (tickers : list string) :
  ∃ out,
    normalize (MultiIndexFrame columns) tickers = Ok out ∧
    NoDup (Dict.keys out) ∧
    (∀ t, t ∈ Dict.keys out ↔
          t ∈ tickers ∧ is_Some (close_column columns t)) ∧
    (∀ t, Dict.get out t =
          if decide (t ∈ tickers) then dropna <$> close_column columns t
          else None).
Proof.
  eexists. split; [reflexivity|]. split; [|split].
  - apply normalize_loop_NoDup. apply NoDup_nil_2.
  - intros t. rewrite normalize_loop_keys. unfold Dict.keys, Dict.empty.
    rewrite fmap_nil, elem_of_nil. tauto.
  - intros t. rewrite normalize_loop_get.
    destruct (decide (t ∈ tickers)); [|done].
    by destruct (close_column columns t).
Qed.

Example scenario_4 :
  let columns : gmap (string * string) Series :=
    {[ ("AAPL", "Close")%string := series_of [3; 2];
       ("AAPL", "Open")%string := series_of [3; 3];
       ("XYZ", "Open")%string := series_of [1; 1] ]} in
  ∃ out, normalize (MultiIndexFrame columns) ["AAPL"; "XYZ"]%string = Ok out
         ∧ Dict.keys out = ["AAPL"%string].
Proof. eexists. split; reflexivity. Qed.

(** C5.  For a single-symbol-shape fetch result the normaliser returns a
    mapping with exactly one entry: its key is the sole requested symbol and
    its value is the closing-price column of the result, carrying the same
    valid prices (the rows with a missing value are dropped, so the column
    itself when nothing is missing). *)
Theorem normalize_single
    (columns : gmap string Series) (col : Series) (t : string) :
  columns !! "Close"%string = Some col →
  normalize (IndexFrame columns) [t] = Ok [(t, dropna col)] ∧
  prices (dropna col) = prices col ∧
  (no_missing col → normalize (IndexFrame columns) [t] = Ok [(t, col)]).
Proof.
  intros Hcol. unfold normalize. rewrite Hcol. simpl.
  split; [done|]. split; [apply prices_dropna|].
  intros Hnm. by rewrite dropna_id.
Qed.

Lemma normalize_single_witness :
  let columns : gmap string Series :=
    {[ "Close"%string := (0, NaN) :: series_of [3; 2];
       "Open"%string := series_of [3; 3; 3] ]} in
  columns !! "Close"%string = Some ((0, NaN) :: series_of [3; 2]) ∧
  normalize (IndexFrame columns) ["AAPL"%string]
    = Ok [("AAPL"%string, dropna ((0, NaN) :: series_of [3; 2]))].
Proof.
  split; [reflexivity|].
  eapply proj1, (normalize_single _ ((0, NaN) :: series_of [3; 2])).
  reflexivity.
Defined.

(** In the single-symbol branch the entry is keyed by the first requested
    symbol, whatever else was requested. *)
Lemma normalize_single_first
    (columns : gmap string Series) (col : Series) (t : string)
    (rest : list string) :
  columns !! "Close"%string = Some col →
  normalize (IndexFrame columns) (t :: rest) = Ok [(t, dropna col)].
Proof. intros Hcol. unfold normalize. by rewrite Hcol. Qed.

(** C8.  Every series of the normaliser's mapping is free of missing
    values, and so is every series that the matching loop hands to the
    detector and, as a match, to the report builder; on such a series the
    detector's own [dropna] changes nothing. *)
Theorem normalize_no_missing
    (data : DataFrame) (tickers : list string) (out : Dict.t Series) :
  normalize data tickers = Ok out →
  Forall (λ m, no_missing m.2 ∧ dropna m.2 = m.2) (Dict.items out) ∧
  ∀ n, Forall (λ m, m ∈ Dict.items out ∧ no_missing m.2)
              (find_matches out n).
Proof.
  intros Hout.
  assert (Forall (λ m : string * Series, no_missing m.2) (Dict.items out))
    as Hall.
  { destruct data as [columns|columns]; simpl in Hout.
    - injection Hout as <-. by apply normalize_loop_no_missing.
    - destruct (columns !! "Close"%string) as [col|]; [|done].
      destruct tickers as [|t0 rest]; [done|]. injection Hout as <-.
      repeat constructor. apply dropna_no_missing. }
  split.
  - eapply Forall_impl; [exact Hall|]. intros m Hm.
    split; [done|by apply dropna_id].
  - intros n. apply Forall_forall. intros m Hm.
    unfold find_matches in Hm. apply list_elem_of_filter in Hm as [_ Hm].
    split; [done|]. by eapply Forall_forall in Hall.
Qed.

Lemma normalize_no_missing_witness :
  let columns : gmap (string * string) Series :=
    {[ ("AAPL", "Close")%string := (0, NaN) :: series_of [3; 2; 1];
       ("XYZ", "Open")%string := series_of [1; 1] ]} in
  let out := [("AAPL"%string, series_of [3; 2; 1])] in
  normalize (MultiIndexFrame columns) ["AAPL"; "XYZ"]%string = Ok out ∧
  Forall (λ m : string * Series, no_missing m.2 ∧ dropna m.2 = m.2)
         (Dict.items out).
Proof.
  intros columns out. split; [reflexivity|].
  exact (proj1 (normalize_no_missing (MultiIndexFrame columns)
                  ["AAPL"; "XYZ"]%string out eq_refl)).
Defined.

(** ** Strings and the ticker set loader *)

Section Strings.

Implicit Types (s a b : string) (c : ascii).











End Strings.

Section Loader.

Implicit Types (cli : string) (file : option string) (l ts : list string).

Lemma load_tickers_selected cli file :
  load_tickers cli file =
    match selected_source cli file with
    | [] => Raise (SystemExit (ExitMsg "No tickers provided."))
    | _ :: _ => Ok (sorted_set (selected_source cli file))
    end.
Proof. reflexivity. Qed.


Lemma elem_of_sorted_set l t : t ∈ sorted_set l ↔ t ∈ l.
Proof.
  unfold sorted_set. rewrite merge_sort_Permutation.
  apply elem_of_remove_dups.
Qed.

Lemma NoDup_sorted_set l : NoDup (sorted_set l).
Proof.
  unfold sorted_set. rewrite merge_sort_Permutation.
  apply NoDup_remove_dups.
Qed.

Lemma Sorted_sorted_set l : Sorted String.le (sorted_set l).
Proof. apply (Sorted_merge_sort String.le). Qed.







End Loader.



Example load_tickers_file :
  load_tickers "  "
    (Some ("# watch list" +:+ nl +:+ " TSLA " +:+ nl +:+ nl +:+ "AAPL" +:+ nl
           +:+ "TSLA"))
    = Ok ["AAPL"; "TSLA"]%string.
Proof. reflexivity. Qed.

Example load_tickers_default :
  load_tickers EmptyString None
    = Ok ["AAPL"; "AMZN"; "GOOGL"; "MSFT"; "TSLA"]%string.
Proof. reflexivity. Qed.




(** ** Runs of [main] *)

Example scenario_5 :
  main (λ t, pretty t) (λ _, "0.00"%string)
       (sample_args "AAPL,XYZ" 7) (sample_world None [3; 2; 1])
    = {| trace := [Download ["AAPL"; "XYZ"]%string "30d";
                   Print "No tickers with 7 consecutive down days today."];
         exit_status := 0; stderr := None |}.
Proof. reflexivity. Qed.

Example main_dry_run :
  let out := main (λ t, pretty t) (λ _, "0.00"%string)
                  (sample_args "AAPL,XYZ" 2) (sample_world None [3; 2; 1]) in
  exit_status out = 0 ∧ stderr out = None ∧
  take 3 (trace out) =
    [Download ["AAPL"; "XYZ"]%string "30d";
     Print ("WARNING: SMTP credentials not set; printing email to stdout instead."
            +:+ nl);
     Print "[Stock Alert] 1 ticker(s) down 2 days in a row — 2024-01-01 00:00 UTC"].
Proof. repeat split. Qed.

(** * Further properties of the code *)

(** ** The detector *)

Section DetectorMore.

Implicit Types (s closes : Series) (n m : Z) (p : list Qc).

Lemma is_consecutive_down_prices closes n :
  is_consecutive_down closes n =
    if Z.of_nat (length (prices closes)) <? n + 1 then false
    else forallb neg (deltas (drop (tail_skip (n + 1) (length (prices closes)))
                                   (prices closes))).
Proof. by rewrite is_consecutive_down_window, prices_tail. Qed.

Lemma is_consecutive_down_true_iff closes n :
  0 ≤ n →
  is_consecutive_down closes n = true ↔ trailing_strictly_down (prices closes) n.
Proof.
  intros Hn. rewrite is_consecutive_down_prices.
  destruct (Z.ltb_spec (Z.of_nat (length (prices closes))) (n + 1)) as [Hlt|Hge].
  - split; [done|]. intros [Hlen _]. lia.
  - by apply window_strictly_down_iff.
Qed.

Lemma is_consecutive_down_prices_ext s1 s2 n :
  prices s1 = prices s2 → is_consecutive_down s1 n = is_consecutive_down s2 n.
Proof. intros Hp. by rewrite !is_consecutive_down_prices, Hp. Qed.

Lemma trailing_strictly_down_shorter p m n :
  m ≤ n → trailing_strictly_down p n → trailing_strictly_down p m.
Proof.
  intros Hmn [Hlen Hall]. split; [lia|].
  intros i a b Hi. apply Hall. lia.
Qed.

Lemma prices_app s1 s2 : prices (s1 ++ s2) = prices s1 ++ prices s2.
Proof. unfold prices. apply omap_app. Qed.

Lemma last_lookup_length p a :
  last p = Some a → p !! (length p - 1)%nat = Some a ∧ (1 ≤ length p)%nat.
Proof.
  rewrite last_lookup. intros Hl. split.
  - by replace (length p - 1)%nat with (pred (length p)) by lia.
  - destruct p; simpl; [done|lia].
Qed.

End DetectorMore.

(** X1.  The verdict depends on nothing but the sequence of valid closing
    prices: two series with the same valid prices, whatever their index
    labels and wherever their missing rows are, get the same verdict for
    every integer threshold. *)
Theorem is_consecutive_down_prices_only (s1 s2 : Series) (n : Z) :
  prices s1 = prices s2 →
  is_consecutive_down s1 n = is_consecutive_down s2 n.
Proof. intros Hp. by rewrite !is_consecutive_down_prices, Hp. Qed.

Lemma is_consecutive_down_prices_only_witness :
  let s1 := (0, NaN) :: series_of [5; 4; 3] in
  let s2 := [(10, Fin (Qc_of_Z 5)); (20, Fin (Qc_of_Z 4)); (25, NaN);
             (30, Fin (Qc_of_Z 3))] in
  prices s1 = prices s2 ∧
  is_consecutive_down s1 2 = is_consecutive_down s2 2.
Proof.
  intros s1 s2. split; [reflexivity|].
  apply (is_consecutive_down_prices_only s1 s2 2). reflexivity.
Defined.

(** X2.  A down-trend of [n] sessions contains one of every shorter length:
    if the detector accepts a series for [n], it accepts it for every
    threshold [m] with [0 ≤ m ≤ n]. *)
Theorem is_consecutive_down_shorter (closes : Series) (m n : Z) :
  0 ≤ m → m ≤ n →
  is_consecutive_down closes n = true →
  is_consecutive_down closes m = true.
Proof.
  intros Hm Hmn Hn.
  apply is_consecutive_down_true_iff in Hn; [|lia].
  apply is_consecutive_down_true_iff; [done|].
  by eapply trailing_strictly_down_shorter.
Qed.

Lemma is_consecutive_down_shorter_witness :
  0 ≤ 1 ∧ 1 ≤ 3 ∧
  is_consecutive_down (series_of [9; 8; 7; 6]) 3 = true ∧
  is_consecutive_down (series_of [9; 8; 7; 6]) 1 = true.
Proof.
  split; [lia|]. split; [lia|]. split; [reflexivity|].
  apply (is_consecutive_down_shorter (series_of [9; 8; 7; 6]) 1 3);
    [lia|lia|reflexivity].
Defined.

(** X3.  A lower close extends the streak: when the detector accepts a
    series for [n] and a new session closes strictly below the last valid
    close, it accepts the extended series for [n + 1]. *)
Theorem is_consecutive_down_extend
    (closes : Series) (n : Z) (a b : Qc) (i : Timestamp) :
  0 ≤ n →
  is_consecutive_down closes n = true →
  last (prices closes) = Some a →
  (b - a < 0)%Qc →
  is_consecutive_down (closes ++ [(i, Fin b)]) (n + 1) = true.
Proof.
  intros Hn Hdown Hlast Hba.
  apply is_consecutive_down_true_iff in Hdown as [Hlen Hall]; [|done].
  apply is_consecutive_down_true_iff; [lia|].
  rewrite prices_app. change (prices [(i, Fin b)]) with [b].
  apply last_lookup_length in Hlast as [Hlast Hpos].
  set (p := prices closes) in *.
  split; [rewrite length_app; simpl; lia|].
  rewrite length_app. simpl. intros j x y Hj Hx Hy.
  destruct (decide (S j < length p)%nat) as [Hin|Hout].
  - rewrite lookup_app_l in Hx, Hy by lia. apply (Hall j); [lia|done..].
  - assert (S j = length p) as Hj'.
    { apply lookup_lt_Some in Hy. rewrite length_app in Hy. simpl in Hy. lia. }
    rewrite lookup_app_l in Hx by lia.
    rewrite Hj', list_lookup_middle in Hy by done.
    replace (length p - 1)%nat with j in Hlast by lia.
    by simplify_eq.
Qed.

Lemma is_consecutive_down_extend_witness :
  is_consecutive_down (series_of [9; 8; 7] ++ [(3, Fin (Qc_of_Z 5))]) (2 + 1)
    = true.
Proof.
  apply (is_consecutive_down_extend (series_of [9; 8; 7]) 2 (Qc_of_Z 7));
    [lia|reflexivity|reflexivity|reflexivity].
Defined.

(** X4.  A close that is not lower ends the streak: when a new session
    closes at or above the last valid close, the detector rejects the
    extended series for every threshold [n ≥ 1]. *)
Theorem is_consecutive_down_reset
    (closes : Series) (n : Z) (a b : Qc) (i : Timestamp) :
  1 ≤ n →
  last (prices closes) = Some a →
  ¬ (b - a < 0)%Qc →
  is_consecutive_down (closes ++ [(i, Fin b)]) n = false.
Proof.
  intros Hn Hlast Hba. apply not_true_is_false. intros Hdown.
  apply is_consecutive_down_true_iff in Hdown as [Hlen Hall]; [|lia].
  rewrite prices_app in Hlen, Hall. change (prices [(i, Fin b)]) with [b] in *.
  apply last_lookup_length in Hlast as [Hlast Hpos].
  set (p := prices closes) in *.
  rewrite length_app in Hlen, Hall. simpl in Hlen, Hall.
  apply Hba, (Hall (length p - 1)%nat); [lia| |].
  - by rewrite lookup_app_l by lia.
  - replace (S (length p - 1)) with (length p) by lia.
    by apply list_lookup_middle.
Qed.

Lemma is_consecutive_down_reset_witness :
  is_consecutive_down (series_of [9; 8; 7] ++ [(3, Fin (Qc_of_Z 7))]) 1
    = false.
Proof.
  apply (is_consecutive_down_reset (series_of [9; 8; 7]) 1 (Qc_of_Z 7));
    [lia|reflexivity|].
  apply Qcle_not_lt. reflexivity.
Defined.

(** X5.  Thresholds below zero are accepted by the code.  For [n = -1] the
    window is empty and every series is reported; for [n < -1] pandas'
    [tail] drops the first [-(n + 1)] valid rows and the detector asks that
    every remaining day-over-day difference be strictly negative. *)
Theorem is_consecutive_down_negative (closes : Series) (n : Z) :
  n < 0 →
  is_consecutive_down closes n =
    if n =? -1 then true
    else forallb neg (deltas (drop (Z.to_nat (- (n + 1))) (prices closes))).
Proof.
  intros Hn. rewrite is_consecutive_down_prices.
  destruct (Z.ltb_spec (Z.of_nat (length (prices closes))) (n + 1)); [lia|].
  unfold tail_skip. destruct (Z.eqb_spec n (-1)) as [->|Hne].
  - simpl. by rewrite drop_all.
  - destruct (Z.eqb_spec (n + 1) 0); [lia|].
    by destruct (Z.ltb_spec 0 (n + 1)); [lia|].
Qed.

Lemma is_consecutive_down_negative_witness :
  -2 < 0 ∧
  is_consecutive_down (series_of [1; 3; 2]) (-2) =
    forallb neg (deltas (drop 1 (prices (series_of [1; 3; 2])))).
Proof.
  split; [lia|].
  apply (is_consecutive_down_negative (series_of [1; 3; 2]) (-2)). lia.
Defined.

Section Monotone.

Variable f : Qc → Qc.
Hypothesis f_mono : ∀ a b : Qc, (a < b)%Qc ↔ (f a < f b)%Qc.




End Monotone.



(** ** The ticker set loader *)

Section Trimming.

Implicit Types (s a b : string) (c : ascii).
















End Trimming.

Section Canonical.

Implicit Types (l : list string).

Lemma sorted_set_ext l1 l2 :
  (∀ t, t ∈ l1 ↔ t ∈ l2) → sorted_set l1 = sorted_set l2.
Proof.
  intros Hl. apply (Sorted_unique String.le); [apply Sorted_sorted_set..|].
  apply NoDup_Permutation; [apply NoDup_sorted_set..|].
  intros t. by rewrite !elem_of_sorted_set.
Qed.

End Canonical.

(** X7.  The loader's answer is canonical: two inputs whose selected
    branches build lists with the same symbols, in whatever order and with
    whatever repetitions, give the same result (the same sorted list, or
    the same failure when there is no symbol). *)
Theorem load_tickers_canonical
    (cli1 cli2 : string) (file1 file2 : option string) :
  (∀ t, t ∈ selected_source cli1 file1 ↔ t ∈ selected_source cli2 file2) →
  load_tickers cli1 file1 = load_tickers cli2 file2.
Proof.
  intros Hsame. rewrite !load_tickers_selected.
  destruct (selected_source cli1 file1) as [|x1 l1] eqn:H1,
           (selected_source cli2 file2) as [|x2 l2] eqn:H2.
  - done.
  - exfalso. apply (elem_of_nil x2), Hsame. by left.
  - exfalso. apply (elem_of_nil x1), Hsame. by left.
  - f_equal. by apply sorted_set_ext.
Qed.

Lemma load_tickers_canonical_witness :
  load_tickers "MSFT,AAPL,MSFT" None
    = load_tickers " " (Some ("AAPL" +:+ nl +:+ "MSFT" +:+ nl)).
Proof.
  apply load_tickers_canonical. intros t.
  change (selected_source "MSFT,AAPL,MSFT" None)
    with ["MSFT"; "AAPL"; "MSFT"]%string.
  change (selected_source " " (Some ("AAPL" +:+ nl +:+ "MSFT" +:+ nl)))
    with ["AAPL"; "MSFT"]%string.
  rewrite !elem_of_cons, !elem_of_nil. tauto.
Defined.




(** ** The normaliser and the matching loop *)

Section Pipeline.

Implicit Types (columns : gmap (string * string) Series)
               (tickers : list string) (d : Dict.t Series) (n : Z).

Lemma dict_set_fresh d (k : string) (v : Series) :
  k ∉ Dict.keys d → Dict.set d k v = d ++ [(k, v)].
Proof.
  unfold Dict.keys. induction d as [|[k' v'] d IH]; [done|].
  rewrite fmap_cons, not_elem_of_cons. intros [Hne Hk]. simpl.
  destruct (decide (k = k')); [done|]. by rewrite IH.
Qed.

Lemma normalize_loop_items columns tickers d :
  NoDup tickers → (∀ t, t ∈ tickers → t ∉ Dict.keys d) →
  foldl (normalize_step columns) d tickers
    = d ++ omap (close_entry columns) tickers.
Proof.
  intros Hnd. revert d. induction Hnd as [|t tickers Ht Hnd IH]; intros d Hd.
  - simpl. by rewrite app_nil_r.
  - simpl. unfold normalize_step at 2, close_entry at 1.
    destruct (close_column columns t) as [col|].
    + rewrite dict_set_fresh by (apply Hd; by left).
      rewrite IH, <-app_assoc; [done|]. intros u Hu.
      unfold Dict.keys. rewrite fmap_app, elem_of_app.
      intros [Hin|Hin%list_elem_of_singleton].
      * apply (Hd u); [by right|done].
      * simpl in Hin. congruence.
    + apply IH. intros u Hu. apply Hd. by right.
Qed.

Lemma normalize_loop_request columns tickers :
  NoDup tickers →
  normalize (MultiIndexFrame columns) tickers
    = Ok (omap (close_entry columns) tickers).
Proof.
  intros Hnd. simpl. f_equal.
  rewrite normalize_loop_items; [done..|].
  intros t _. unfold Dict.keys, Dict.empty. apply not_elem_of_nil.
Qed.

Lemma find_matches_entries columns tickers n :
  find_matches (omap (close_entry columns) tickers) n
    = omap (match_entry columns n) tickers.
Proof.
  unfold find_matches, Dict.items.
  induction tickers as [|t tickers IH]; [done|].
  simpl. unfold close_entry at 1, match_entry at 1.
  destruct (close_column columns t) as [col|]; [|exact IH].
  rewrite filter_cons. simpl.
  rewrite (is_consecutive_down_prices_ext (dropna col) col n)
    by apply prices_dropna.
  destruct (is_consecutive_down col n) eqn:Hcol.
  - rewrite decide_True by done. f_equal. exact IH.
  - rewrite decide_False by done. exact IH.
Qed.

Lemma match_entries_keys columns tickers n t :
  t ∈ (omap (match_entry columns n) tickers).*1 → t ∈ tickers.
Proof.
  rewrite list_elem_of_fmap. intros ([u s] & -> & Hin).
  apply list_elem_of_omap in Hin as (t' & Ht' & Hentry).
  unfold match_entry in Hentry.
  destruct (close_column columns t'); [|done].
  destruct (is_consecutive_down _ _); [|done].
  by simplify_eq/=.
Qed.

Lemma match_entries_sorted columns tickers n :
  StronglySorted String.le tickers →
  StronglySorted String.le (omap (match_entry columns n) tickers).*1.
Proof.
  induction 1 as [|t tickers Hs IH Hall]; [constructor|].
  simpl. destruct (match_entry columns n t) as [[u s]|] eqn:Hentry; [|exact IH].
  assert (u = t) as ->.
  { unfold match_entry in Hentry.
    destruct (close_column columns t); [|done].
    destruct (is_consecutive_down _ _); [|done]. by simplify_eq. }
  rewrite fmap_cons. constructor; [exact IH|].
  apply Forall_forall. intros v Hv%match_entries_keys.
  rewrite Forall_forall in Hall. by apply Hall.
Qed.

Lemma match_entries_NoDup columns tickers n :
  NoDup tickers → NoDup (omap (match_entry columns n) tickers).*1.
Proof.
  induction 1 as [|t tickers Ht Hnd IH]; [constructor|].
  simpl. destruct (match_entry columns n t) as [[u s]|] eqn:Hentry; [|exact IH].
  assert (u = t) as ->.
  { unfold match_entry in Hentry.
    destruct (close_column columns t); [|done].
    destruct (is_consecutive_down _ _); [|done]. by simplify_eq. }
  rewrite fmap_cons. constructor; [|exact IH].
  intros Hin%match_entries_keys. done.
Qed.

End Pipeline.

(** X10.  For a request without repeated symbols the combined branch lists
    its entries in the order of the request: the mapping is the list of the
    requested symbols that have a closing-price column, each with its
    cleaned column, in request order. *)
Theorem normalize_combined_items
    (columns : gmap (string * string) Series) (tickers : list string) :
  NoDup tickers →
  normalize (MultiIndexFrame columns) tickers
    = Ok (omap (close_entry columns) tickers).
Proof.
  intros Hnd. simpl. f_equal.
  rewrite normalize_loop_items; [done..|].
  intros t _. unfold Dict.keys, Dict.empty. apply not_elem_of_nil.
Qed.

Lemma normalize_combined_items_witness :
  let columns : gmap (string * string) Series :=
    {[ ("MSFT", "Close")%string := (0, NaN) :: series_of [3; 2];
       ("AAPL", "Close")%string := series_of [1; 1] ]} in
  normalize (MultiIndexFrame columns) ["AAPL"; "MSFT"; "XYZ"]%string
    = Ok (omap (close_entry columns) ["AAPL"; "MSFT"; "XYZ"]%string).
Proof.
  intros columns. apply (normalize_combined_items columns).
  apply NoDup_ListNoDup. repeat constructor; simpl; intuition discriminate.
Defined.

(** X11.  What is reported, for a combined result and a request without
    repeated symbols: in request order, exactly the requested symbols that
    have a closing-price column on which the detector answers true, each
    with its cleaned column.  Testing the cleaned column or the raw one
    makes no difference. *)
Theorem find_matches_combined
    (columns : gmap (string * string) Series) (tickers : list string)
    (out : Dict.t Series) (n : Z) :
  NoDup tickers →
  normalize (MultiIndexFrame columns) tickers = Ok out →
  find_matches out n = omap (match_entry columns n) tickers.
Proof.
  intros Hnd Hout. rewrite normalize_loop_request in Hout by done.
  injection Hout as <-. apply find_matches_entries.
Qed.

Lemma find_matches_combined_witness :
  let columns : gmap (string * string) Series :=
    {[ ("MSFT", "Close")%string := (0, NaN) :: series_of [3; 2];
       ("AAPL", "Close")%string := series_of [1; 1] ]} in
  find_matches (omap (close_entry columns) ["AAPL"; "MSFT"; "XYZ"]%string) 1
    = omap (match_entry columns 1) ["AAPL"; "MSFT"; "XYZ"]%string.
Proof.
  intros columns.
  apply (find_matches_combined columns ["AAPL"; "MSFT"; "XYZ"]%string).
  - apply NoDup_ListNoDup. repeat constructor; simpl; intuition discriminate.
  - reflexivity.
Defined.

(** X12.  With the ticker list of the loader and a combined result, the
    reported symbols are in lexicographic order, none appears twice, and
    each of them was requested. *)
Theorem find_matches_sorted
    (cli_tickers : string) (tickers_txt : option string)
    (columns : gmap (string * string) Series) (tickers : list string)
    (out : Dict.t Series) (n : Z) :
  load_tickers cli_tickers tickers_txt = Ok tickers →
  normalize (MultiIndexFrame columns) tickers = Ok out →
  Sorted String.le (find_matches out n).*1 ∧
  NoDup (find_matches out n).*1 ∧
  (find_matches out n).*1 ⊆ tickers.
Proof.
  rewrite load_tickers_selected. intros Hload Hout.
  destruct (selected_source cli_tickers tickers_txt) as [|x l]; [done|].
  injection Hload as <-.
  pose proof (NoDup_sorted_set (x :: l)) as Hnd.
  rewrite normalize_loop_request in Hout by done. injection Hout as <-.
  rewrite find_matches_entries.
  split; [|split].
  - apply StronglySorted_Sorted, match_entries_sorted.
    apply Sorted_StronglySorted; [apply _|apply Sorted_sorted_set].
  - by apply match_entries_NoDup.
  - intros t. apply match_entries_keys.
Qed.

Lemma find_matches_sorted_witness :
  let columns : gmap (string * string) Series :=
    {[ ("MSFT", "Close")%string := series_of [3; 2];
       ("AAPL", "Close")%string := series_of [5; 1] ]} in
  let out := [("AAPL"%string, series_of [5; 1]);
              ("MSFT"%string, series_of [3; 2])] in
  Sorted String.le (find_matches out 1).*1.
Proof.
  intros columns out.
  apply (find_matches_sorted "MSFT,AAPL" None columns
           ["AAPL"; "MSFT"]%string out 1); reflexivity.
Defined.

(** X13.  With a flat (single-symbol-shape) result that has a closing-price
    column, only the first requested symbol can be reported, whatever else
    was requested: it is reported, with the cleaned column, exactly when
    the detector accepts the column. *)
Theorem find_matches_flat
    (columns : gmap string Series) (col : Series) (t : string)
    (rest : list string) (n : Z) :
  columns !! "Close"%string = Some col →
  ∃ out,
    normalize (IndexFrame columns) (t :: rest) = Ok out ∧
    find_matches out n =
      if is_consecutive_down col n then [(t, dropna col)] else [].
Proof.
  intros Hcol. exists [(t, dropna col)]. split.
  - by apply normalize_single_first.
  - unfold find_matches, Dict.items. rewrite filter_cons, filter_nil. simpl.
    rewrite (is_consecutive_down_prices_ext (dropna col) col n)
      by apply prices_dropna.
    by destruct (is_consecutive_down col n).
Qed.

Lemma find_matches_flat_witness :
  let columns : gmap string Series :=
    {[ "Close"%string := (0, NaN) :: series_of [3; 2] ]} in
  ∃ out,
    normalize (IndexFrame columns) ["AAPL"; "MSFT"]%string = Ok out ∧
    find_matches out 1 =
      if is_consecutive_down ((0, NaN) :: series_of [3; 2]) 1
      then [("AAPL"%string, dropna ((0, NaN) :: series_of [3; 2]))] else [].
Proof.
  intros columns.
  apply (find_matches_flat columns ((0, NaN) :: series_of [3; 2])).
  reflexivity.
Defined.

(** ** The report builder *)

Section ReportMore.

Variable strftime_ymd : Timestamp → string.
Variable format_price : pyfloat → string.

Lemma tail_idemp (k : Z) (s : Series) : 0 ≤ k → tail k (tail k s) = tail k s.
Proof.
  intros Hk. unfold tail. destruct (Z.eqb_spec k 0); [done|].
  destruct (Z.ltb_spec 0 k); [|lia].
  rewrite length_drop.
  by replace (length s - (length s - Z.to_nat k) - Z.to_nat k)%nat
    with 0%nat by lia.
Qed.

Lemma dropna_tail (k : Z) (s : Series) :
  no_missing s → dropna (tail k s) = tail k s.
Proof.
  intros Hs. apply dropna_id. rewrite tail_drop. by apply no_missing_drop.
Qed.

Lemma row_recent (k : Z) (m : string * Series) :
  0 ≤ k →
  row strftime_ymd format_price k (m.1, tail k (dropna m.2))
    = row strftime_ymd format_price k m.
Proof.
  intros Hk. unfold row. simpl.
  rewrite dropna_tail by apply dropna_no_missing.
  by rewrite tail_idemp.
Qed.

Lemma build_email_html_rows (ms1 ms2 : list (string * Series)) (k : Z) :
  row strftime_ymd format_price k <$> ms1
    = row strftime_ymd format_price k <$> ms2 →
  build_email_html strftime_ymd format_price ms1 k
    = build_email_html strftime_ymd format_price ms2 k.
Proof.
  intros Hrows. destruct ms1 as [|m1 ms1], ms2 as [|m2 ms2]; try done.
  unfold build_email_html. cbv zeta. by rewrite Hrows.
Qed.

End ReportMore.

(** X14.  For a display window [k ≥ 0] the report is built from the last
    [k] valid points of each match and from nothing else: earlier rows and
    rows with a missing value never reach it. *)
Theorem build_email_html_recent
    (strftime_ymd : Timestamp → string) (format_price : pyfloat → string)
    (matches : list (string * Series)) (last_n_to_show : Z) :
  0 ≤ last_n_to_show →
  build_email_html strftime_ymd format_price matches last_n_to_show =
    build_email_html strftime_ymd format_price
      ((λ m, (m.1, tail last_n_to_show (dropna m.2))) <$> matches)
      last_n_to_show.
Proof.
  intros Hk. apply build_email_html_rows.
  rewrite <-list_fmap_compose. apply list_fmap_ext.
  intros _ m _. simpl. symmetry. by apply row_recent.
Qed.

Lemma build_email_html_recent_witness :
  let m := ("AAPL"%string, (0, NaN) :: series_of [9; 8; 7; 6]) in
  build_email_html (λ t, pretty t) (λ _, "0.00"%string) [m] 2 =
    build_email_html (λ t, pretty t) (λ _, "0.00"%string)
      [("AAPL"%string, tail 2 (dropna m.2))] 2.
Proof.
  intros m.
  apply (build_email_html_recent (λ t, pretty t) (λ _, "0.00"%string) [m] 2).
  lia.
Defined.

(** ** Runs of [main] *)

Section Runs.

Variable strftime_ymd : Timestamp → string.
Variable format_price : pyfloat → string.

Implicit Types (a : Args) (w : World) (e : exn) (tr : list event).

Lemma trace_uncaught tr e : trace (uncaught tr e) = tr.
Proof. by destruct e as [[c|m]|k| |m]. Qed.

Lemma length_prices_le (s : Series) : (length (prices s) ≤ length s)%nat.
Proof.
  rewrite <-prices_dropna, length_prices by apply dropna_no_missing.
  apply length_filter.
Qed.

Lemma match_entries_short
    (columns : gmap (string * string) Series) (tickers : list string) (n : Z) :
  (∀ t col, close_column columns t = Some col → Z.of_nat (length col) ≤ n) →
  omap (match_entry columns n) tickers = [].
Proof.
  intros Hshort. induction tickers as [|t tickers IH]; [done|].
  simpl. unfold match_entry at 1.
  destruct (close_column columns t) as [col|] eqn:Hcol; [|exact IH].
  rewrite is_consecutive_down_prices.
  pose proof (Hshort t col Hcol). pose proof (length_prices_le col).
  destruct (Z.ltb_spec (Z.of_nat (length (prices col))) (n + 1)); [exact IH|lia].
Qed.

End Runs.



(** X16.  A history that is too short never raises an alert: when no
    closing-price column of a combined result has more than [days_check]
    rows, the run prints the no-match line and exits with status 0, with
    or without credentials. *)
Theorem main_short_history
    (strftime_ymd : Timestamp → string) (format_price : pyfloat → string)
    (a : Args) (w : World) (tickers : list string)
    (columns : gmap (string * string) Series) :
  load_tickers (args_tickers a) (tickers_txt w) = Ok tickers →
  yf_download w tickers (pretty (args_days_fetch a) +:+ "d")
    = Ok (MultiIndexFrame columns) →
  (∀ t col, close_column columns t = Some col →
            Z.of_nat (length col) ≤ args_days_check a) →
  main strftime_ymd format_price a w
    = {| trace := [Download tickers (pretty (args_days_fetch a) +:+ "d");
                   Print "No tickers with 7 consecutive down days today."];
         exit_status := 0; stderr := None |}.
Proof.
  intros Hload Hdata Hshort.
  assert (NoDup tickers) as Hnd.
  { rewrite load_tickers_selected in Hload.
    destruct (selected_source _ _); [done|]. injection Hload as <-.
    apply NoDup_sorted_set. }
  unfold main. rewrite Hload. cbv zeta. rewrite Hdata.
  rewrite normalize_loop_request by done.
  rewrite find_matches_entries, match_entries_short by done.
  reflexivity.
Qed.

Lemma main_short_history_witness :
  main (λ t, pretty t) (λ _, "0.00"%string)
       (sample_args "AAPL" 3) (sample_world None [3; 2; 1])
    = {| trace := [Download ["AAPL"%string] "30d";
                   Print "No tickers with 7 consecutive down days today."];
         exit_status := 0; stderr := None |}.
Proof.
  apply (main_short_history _ _ (sample_args "AAPL" 3)
           (sample_world None [3; 2; 1]) ["AAPL"%string]
           {[ ("AAPL", "Close")%string := series_of [3; 2; 1] ]}).
  - reflexivity.
  - reflexivity.
  - intros t col Hcol. unfold close_column in Hcol.
    apply lookup_singleton_Some in Hcol as [_ <-]. simpl. lia.
Defined.

(** X17.  Without credentials nothing is ever sent: when the user name or
    the password is empty, no run hands a message to the mail server,
    whatever the symbol file, the provider and the server do. *)
Theorem main_no_credentials_no_mail
    (strftime_ymd : Timestamp → string) (format_price : pyfloat → string)
    (a : Args) (w : World) :
  truthy (args_smtp_user a) = false ∨ truthy (args_smtp_pass a) = false →
  Forall (λ ev, is_sendmail ev = false)
         (trace (main strftime_ymd format_price a w)).
Proof.
  intros Hcred. unfold main.
  destruct (load_tickers _ _) as [tickers|e];
    [|rewrite trace_uncaught; constructor].
  cbv zeta. destruct (yf_download _ _ _) as [data|e];
    [|rewrite trace_uncaught; by repeat constructor].
  destruct (normalize _ _) as [out|e];
    [|rewrite trace_uncaught; by repeat constructor].
  destruct (find_matches _ _) as [|m ms]; [by repeat constructor|].
  assert (negb (truthy (args_smtp_user a)) || negb (truthy (args_smtp_pass a))
          = true) as ->.
  { destruct Hcred as [-> | ->]; [done|]. apply orb_true_r. }
  rewrite trace_uncaught. by repeat constructor.
Qed.

Lemma main_no_credentials_no_mail_witness :
  Forall (λ ev, is_sendmail ev = false)
         (trace (main (λ t, pretty t) (λ _, "0.00"%string)
                      (sample_args "AAPL" 2) (sample_world None [3; 2; 1]))).
Proof.
  apply main_no_credentials_no_mail. by left.
Defined.

(** X18.  The provider is asked at most once and before anything else
    happens: a run whose loader fails leaves no trace, and every other run
    starts with one download request, for exactly the loader's ticker list
    and the period [<days_fetch>d], and never makes a second one. *)
Theorem main_download_once
    (strftime_ymd : Timestamp → string) (format_price : pyfloat → string)
    (a : Args) (w : World) :
  match load_tickers (args_tickers a) (tickers_txt w) with
  | Raise _ => trace (main strftime_ymd format_price a w) = []
  | Ok tickers =>
      ∃ rest,
        trace (main strftime_ymd format_price a w)
          = Download tickers (pretty (args_days_fetch a) +:+ "d") :: rest ∧
        Forall (λ ev, is_download ev = false) rest
  end.
Proof.
  unfold main. destruct (load_tickers _ _) as [tickers|e];
    [|by rewrite trace_uncaught].
  cbv zeta. destruct (yf_download _ _ _) as [data|e];
    [|rewrite trace_uncaught; by eexists].
  destruct (normalize _ _) as [out|e]; [|rewrite trace_uncaught; by eexists].
  destruct (find_matches _ _) as [|m ms].
  { eexists. split; [reflexivity|]. by repeat constructor. }
  destruct (negb _ || negb _).
  - rewrite trace_uncaught. eexists. split; [reflexivity|].
    by repeat constructor.
  - unfold send_email. destruct (smtp w) as [e|].
    + rewrite trace_uncaught. eexists. split; [reflexivity|].
      by repeat constructor.
    + eexists. split; [reflexivity|]. by repeat constructor.
Qed.



(** X20.  A run whose fetch and normalisation succeed and whose mail
    server, if it is reached, accepts the message always ends with exit
    status 0 and writes nothing to the error stream: having no match or no
    credentials is not a failure. *)
Theorem main_success_status
    (strftime_ymd : Timestamp → string) (format_price : pyfloat → string)
    (a : Args) (w : World) (tickers : list string) (data : DataFrame)
    (out : Dict.t Series) :
  load_tickers (args_tickers a) (tickers_txt w) = Ok tickers →
  yf_download w tickers (pretty (args_days_fetch a) +:+ "d") = Ok data →
  normalize data tickers = Ok out →
  smtp w = None →
  exit_status (main strftime_ymd format_price a w) = 0 ∧
  stderr (main strftime_ymd format_price a w) = None.
Proof.
  intros Hload Hdata Hout Hsmtp. unfold main. rewrite Hload. cbv zeta.
  rewrite Hdata, Hout.
  destruct (find_matches out (args_days_check a)) as [|m ms]; [done|].
  destruct (negb _ || negb _); [done|].
  unfold send_email. by rewrite Hsmtp.
Qed.

Lemma main_success_status_witness :
  exit_status (main (λ t, pretty t) (λ _, "0.00"%string)
                    (sample_args "AAPL" 2) (sample_world None [3; 2; 1])) = 0.
Proof.
  eapply proj1,
    (main_success_status _ _ (sample_args "AAPL" 2)
       (sample_world None [3; 2; 1]) ["AAPL"%string]
       (MultiIndexFrame {[ ("AAPL", "Close")%string := series_of [3; 2; 1] ]})
       [("AAPL"%string, series_of [3; 2; 1])]); reflexivity.
Defined.
